(** * opencompass/runners/base.py: the runner base class

    A shallow embedding of [BaseRunner] (construction, [__call__],
    [summarize]) and the properties of its status aggregation and
    reporting.

    Python strings are modelled as their UTF-8 byte strings, Python
    integers as [Z].  The effects of the code (log records handed to the
    logger, calls of the reporter's [post]) are recorded in a trace; a
    raised exception ends the computation with the trace reached so far. *)

From Stdlib Require Import List String Ascii ZArith Lia Bool DecimalString.
From Stdlib Require Import DecimalPos DecimalZ Permutation.
Import ListNotations.
Open Scope string_scope.

(** ** Python values *)

(** [str(n)] for an integer, as used by an f-string field [{n}]. *)
Definition str_int (z : Z) : string := NilZero.string_of_int (Z.to_int z).

(** The character and the one-character string ['\n']. *)
Definition newline : ascii := "010"%char.
Definition nl : string := String newline EmptyString.

(** ['sep'.join(ls)] is [String.concat sep ls]. *)
Definition join (sep : string) (ls : list string) : string :=
  String.concat sep ls.

(** Truth value of an argument annotated [str] with default [None]. *)
Definition truthy (v : option string) : bool :=
  match v with
  | None => false
  | Some EmptyString => false
  | Some (String _ _) => true
  end.

(** An exception object: its class name and its message. *)
Record exn := Exn { exn_class : string; exn_msg : string }.

(** ** Objects *)

(** [mmengine] configuration of the task type; only the attribute [type]
    is read by the runner. *)
Record ConfigDict := { type : string }.

(** [Config(task)] gives attribute access to the same entries. *)
Definition Config (task : ConfigDict) : ConfigDict := task.

(** [opencompass.utils.LarkReporter]: an object holding the bot url.  It
    defines neither [__bool__] nor [__len__], so an instance is true. *)
Record LarkReporter := { url : string }.

Record BaseRunner := {
  task_cfg : ConfigDict;
  debug : bool;
  lark_reporter : option LarkReporter
}.

(** ** Effects *)

Inductive level := DEBUG | INFO | WARNING | ERROR | CRITICAL.

Inductive event :=
| Log (lvl : level) (msg : string)
| Post (target : string) (title content : string).

(** The runner object the method is called on, and what has been
    observed so far (oldest event first). *)
Record Store := { self : BaseRunner; trace : list event }.

Inductive outcome (A : Type) :=
| Returned (a : A) (s : Store)
| Raised (e : exn) (s : Store).
Arguments Returned {A} a s.
Arguments Raised {A} e s.

Definition M (A : Type) : Type := Store -> outcome A.

Definition ret {A} (a : A) : M A := fun s => Returned a s.

Definition bind {A B} (m : M A) (k : A -> M B) : M B :=
  fun s =>
    match m s with
    | Returned a s' => k a s'
    | Raised e s' => Raised e s'
    end.

Notation "x <- m ;; k" := (bind m (fun x => k))
  (at level 61, m at next level, right associativity).
Notation "m ;;; k" := (bind m (fun _ => k))
  (at level 61, right associativity).

Definition get_self : M BaseRunner := fun s => Returned (self s) s.

Definition emit (e : event) : M unit :=
  fun s => Returned tt {| self := self s; trace := trace s ++ [e] |}.

Definition final {A} (o : outcome A) : Store :=
  match o with
  | Returned _ s => s
  | Raised _ s => s
  end.


(** ** The host: the collaborators outside this module *)

(** [getuser] is the name [getpass.getuser()] returns on this host; the
    call is taken to return, as is the read of [task_cfg.type].
    [deliver target title content history] is what happens inside
    [LarkReporter.post] (the HTTP request): [None] when it returns,
    [Some e] when it raises [e]. *)
Record Host := {
  getuser : string;
  deliver : string -> string -> string -> list event -> option exn
}.

Section Runner.

Context (host : Host).

(** [get_logger().error(msg)] *)
Definition logger_error (msg : string) : M unit := emit (Log ERROR msg).

(** [reporter.post(title=..., content=...)]: the call is recorded, then
    the transport decides whether it returns. *)
Definition post (reporter : LarkReporter) (title content : string) : M unit :=
  fun s =>
    let s' := {| self := self s;
                 trace := trace s ++ [Post (url reporter) title content] |} in
    match deliver host (url reporter) title content (trace s) with
    | None => Returned tt s'
    | Some e => Raised e s'
    end.

(** [BaseRunner.__init__] *)
Definition __init__ (task : ConfigDict) (debug : bool)
    (lark_bot_url : option string) : BaseRunner :=
  {| task_cfg := Config task;
     debug := debug;
     lark_reporter :=
       if truthy lark_bot_url then
         match lark_bot_url with
         | Some u => Some {| url := u |}
         | None => None
         end
       else None |}.

(** The [for _task, code in status] loop of [summarize]; [failed_logs]
    is the list built so far. *)
Fixpoint summarize_loop (status : list (string * Z)) (failed_logs : list string)
    : M (list string) :=
  match status with
  | [] => ret failed_logs
  | (_task, code) :: rest =>
      if negb (code =? 0)%Z then
        logger_error (_task ++ " failed with code " ++ str_int code) ;;;
        summarize_loop rest (failed_logs ++ [_task])
      else
        summarize_loop rest failed_logs
  end.

(** [len(l)] *)
Definition len {A} (l : list A) : Z := Z.of_nat (List.length l).

(** [num_succeeded = len(status) - len(failed_logs)] *)
Definition num_succeeded (status : list (string * Z)) (failed_logs : list string)
    : Z :=
  (len status - len failed_logs)%Z.

(** [BaseRunner.summarize] *)
Definition summarize (status : list (string * Z)) : M unit :=
  failed_logs <- summarize_loop status [] ;;
  me <- get_self ;;
  match lark_reporter me with
  | Some reporter =>
      let num_succeeded := num_succeeded status failed_logs in
      if (len failed_logs >? 0)%Z then
        let content := getuser host ++ " 的 " in
        let content := content ++ (type (task_cfg me) ++ " 任务已完成，") in
        let content := content ++ ("成功任务 " ++ str_int num_succeeded ++ " 个，") in
        let content := content ++ ("失败 " ++ str_int (len failed_logs)
                                    ++ " 个。以下为失败的任务列表：") in
        let content := content ++ (nl ++ join nl failed_logs) in
        post reporter
             ("悲报：您有" ++ str_int (len failed_logs) ++ "个" ++ "任务炸了")
             content
      else
        let content := getuser host ++ " 的 " in
        let content := content ++ (type (task_cfg me) ++ " 任务已完成，") in
        let content := content ++ ("成功任务 " ++ str_int num_succeeded ++ " 个。") in
        post reporter "喜报：全部任务完成" content
  | None => ret tt
  end.

(** The abstract method [launch]: each runner supplies its own. *)
Class Launcher (Task : Type) := {
  launch : list Task -> M (list (string * Z))
}.

(** [BaseRunner.__call__] *)
Definition __call__ {Task} `{Launcher Task} (tasks : list Task) : M unit :=
  status <- launch tasks ;;
  summarize status.

End Runner.


(** ** Observations on a run *)

(** [s] after the events [evs] have been observed. *)
Definition record (s : Store) (evs : list event) : Store :=
  {| self := self s; trace := trace s ++ evs |}.

(** The events a computation adds to the trace when started in [s]. *)
Definition emitted {A} (m : M A) (s : Store) : list event :=
  skipn (List.length (trace s)) (trace (final (m s))).

(** What the caller sees: the value returned or the exception raised. *)
Definition result {A} (o : outcome A) : A + exn :=
  match o with
  | Returned a _ => inl a
  | Raised e _ => inr e
  end.

Definition is_log (e : event) : bool :=
  match e with Log _ _ => true | Post _ _ _ => false end.

Definition is_post (e : event) : bool :=
  match e with Log _ _ => false | Post _ _ _ => true end.

Definition logs_of (evs : list event) : list event := filter is_log evs.
Definition posts_of (evs : list event) : list event := filter is_post evs.

(** ** Classification of a result list *)

(** The test [code != 0] on an entry. *)
Definition is_failed (e : string * Z) : bool := negb (snd e =? 0)%Z.
Definition is_succeeded (e : string * Z) : bool := (snd e =? 0)%Z.

Definition failed_names (R : list (string * Z)) : list string :=
  map fst (filter is_failed R).

Definition failure_log (e : string * Z) : event :=
  Log ERROR (fst e ++ " failed with code " ++ str_int (snd e)).

Definition failure_logs (R : list (string * Z)) : list event :=
  map failure_log (filter is_failed R).

(** The title and the content [summarize] hands to [post]. *)
Definition notification (host : Host) (me : BaseRunner) (R : list (string * Z))
    : string * string :=
  let failed := failed_names R in
  if (len failed >? 0)%Z then
    ("悲报：您有" ++ str_int (len failed) ++ "个任务炸了",
     getuser host ++ " 的 " ++ type (task_cfg me) ++ " 任务已完成，成功任务 "
       ++ str_int (num_succeeded R failed) ++ " 个，失败 "
       ++ str_int (len failed) ++ " 个。以下为失败的任务列表：" ++ nl
       ++ join nl failed)
  else
    ("喜报：全部任务完成",
     getuser host ++ " 的 " ++ type (task_cfg me) ++ " 任务已完成，成功任务 "
       ++ str_int (num_succeeded R failed) ++ " 个。").

(** ** Lines of a text *)

(** [c in s] for a character. *)
Fixpoint has_char (c : ascii) (s : string) : bool :=
  match s with
  | EmptyString => false
  | String a s' => Ascii.eqb a c || has_char c s'
  end.

(** [s.split(c)] for a one-character separator. *)
Fixpoint split_on (c : ascii) (s : string) : list string :=
  match s with
  | EmptyString => [EmptyString]
  | String a s' =>
      if Ascii.eqb a c then EmptyString :: split_on c s'
      else match split_on c s' with
           | x :: xs => String a x :: xs
           | [] => [String a EmptyString]
           end
  end.

(** ** Concrete hosts, runners and backends used in the examples *)

Definition host_up : Host :=
  {| getuser := "alice"; deliver := fun _ _ _ _ => None |}.

(** A host whose webhook is unreachable: every [post] raises. *)
Definition host_down : Host :=
  {| getuser := "alice";
     deliver := fun _ _ _ _ =>
       Some (Exn "ConnectionError" "Max retries exceeded") |}.

Definition infer_task : ConfigDict := {| type := "OpenICLInferTask" |}.

Definition runner_lark : BaseRunner :=
  __init__ infer_task false (Some "https://open.feishu.cn/bot/hook").

Definition runner_quiet : BaseRunner := __init__ infer_task false None.

Definition fresh (r : BaseRunner) : Store := {| self := r; trace := [] |}.

(** A backend in which every task exits with code 1. *)
Definition all_fail : Launcher string :=
  {| launch := fun tasks => ret (map (fun t => (t, 1%Z)) tasks) |}.

(** The titles of the reports in a run, in the order they were posted. *)
Definition titles (evs : list event) : list string :=
  flat_map (fun e => match e with
                     | Post _ title _ => [title]
                     | Log _ _ => []
                     end) evs.

(** A backend that cannot reach its cluster: [launch] raises before any
    result exists. *)
Definition unreachable : Launcher string :=
  {| launch := fun _ s => Raised (Exn "RuntimeError" "cluster unreachable") s |}.

(** A result list with the exit codes mapped through [f]. *)
Definition map_codes (f : Z -> Z) (R : list (string * Z)) : list (string * Z) :=
  map (fun e => (fst e, f (snd e))) R.


(** The part of [s] after its last space ([s.rsplit(' ', 1)[-1]]). *)
Fixpoint last_word (s : string) : string :=
  match s with
  | EmptyString => EmptyString
  | String a s' =>
      if has_char " " s' then last_word s'
      else if Ascii.eqb a " " then s' else String a s'
  end.

(** * Properties *)

(** ** Strings and lists *)

Lemma append_assoc (a b c : string) : (a ++ b) ++ c = a ++ (b ++ c).
Proof.
  induction a as [|x a IH]; simpl; [reflexivity | now rewrite IH].
Qed.

Lemma skipn_past {A} (l l' : list A) : skipn (List.length l) (l ++ l')%list = l'.
Proof.
  induction l as [|x l IH]; simpl; [reflexivity | exact IH].
Qed.

Lemma len_nonneg {A} (l : list A) : (0 <= len l)%Z.
Proof. unfold len; lia. Qed.

Lemma len_pos_iff {A} (l : list A) : (len l >? 0)%Z = true <-> l <> [].
Proof.
  unfold len; destruct l as [|x l]; simpl; split; intro H;
    try discriminate; try congruence; try reflexivity.
Qed.

Lemma filter_partition_length {A} (p : A -> bool) (l : list A) :
  (List.length (filter p l)
   + List.length (filter (fun x => negb (p x)) l) = List.length l)%nat.
Proof.
  induction l as [|x l IH]; simpl; [reflexivity|].
  destruct (p x); simpl; lia.
Qed.

(** ** The classification loop *)

Lemma summarize_loop_spec (R : list (string * Z)) :
  forall (acc : list string) (s : Store),
    summarize_loop R acc s
    = Returned (acc ++ failed_names R)%list (record s (failure_logs R)).
Proof.
  induction R as [|[t c] R IH]; intros acc s.
  - unfold failed_names, failure_logs, record; simpl.
    rewrite !app_nil_r. destruct s; reflexivity.
  - assert (F : is_failed (t, c) = negb (c =? 0)%Z) by reflexivity.
    unfold failed_names, failure_logs; simpl; rewrite F.
    destruct (c =? 0)%Z; simpl.
    + apply IH.
    + unfold bind, logger_error, emit. rewrite IH.
      unfold record, failed_names, failure_logs, failure_log; simpl.
      now rewrite <- !app_assoc.
Qed.

Lemma failed_names_length (R : list (string * Z)) :
  List.length (failed_names R) = List.length (filter is_failed R).
Proof. unfold failed_names; apply length_map. Qed.

Lemma failed_names_nonempty (R : list (string * Z)) :
  failed_names R <> [] <-> exists t c, In (t, c) R /\ c <> 0%Z.
Proof.
  unfold failed_names. split.
  - intro H. destruct (filter is_failed R) as [|[t c] l] eqn:E; [now elim H|].
    assert (I : In (t, c) (filter is_failed R)) by (rewrite E; now left).
    apply filter_In in I. destruct I as [I F]. exists t, c. split; [exact I|].
    unfold is_failed in F; simpl in F. intros ->. discriminate.
  - intros (t & c & I & N) E.
    assert (I' : In (t, c) (filter is_failed R)).
    { apply filter_In. split; [exact I|]. unfold is_failed; simpl.
      destruct (Z.eqb_spec c 0); [contradiction | reflexivity]. }
    apply (in_map fst) in I'. rewrite E in I'. exact I'.
Qed.

Lemma failed_names_all_ok (R : list (string * Z)) :
  Forall (fun e => snd e = 0%Z) R -> failed_names R = [].
Proof.
  intro H. destruct (failed_names R) as [|n l] eqn:E; [reflexivity|].
  assert (N : failed_names R <> []) by (rewrite E; discriminate).
  apply failed_names_nonempty in N. destruct N as (t & c & I & N).
  rewrite Forall_forall in H. specialize (H _ I). simpl in H. contradiction.
Qed.

(** ** What [summarize] does, in one equation *)

Lemma summarize_spec (host : Host) (R : list (string * Z)) (s : Store) :
  summarize host R s
  = match lark_reporter (self s) with
    | Some reporter =>
        post host reporter (fst (notification host (self s) R))
             (snd (notification host (self s) R)) (record s (failure_logs R))
    | None => Returned tt (record s (failure_logs R))
    end.
Proof.
  unfold summarize, bind. rewrite summarize_loop_spec.
  change ([] ++ failed_names R)%list with (failed_names R).
  cbv beta iota delta [get_self].
  change (self (record s (failure_logs R))) with (self s).
  destruct (lark_reporter (self s)) as [rep|]; [|reflexivity].
  unfold notification.
  destruct (len (failed_names R) >? 0)%Z; cbv beta iota zeta delta [fst snd];
    rewrite !append_assoc; reflexivity.
Qed.

Lemma post_trace (host : Host) (rep : LarkReporter) (t c : string) (s : Store) :
  final (post host rep t c s) = record s [Post (url rep) t c].
Proof.
  unfold post. destruct (deliver host _ _ _ _); reflexivity.
Qed.

Lemma summarize_final (host : Host) (R : list (string * Z)) (s : Store) :
  final (summarize host R s)
  = record s (failure_logs R
              ++ match lark_reporter (self s) with
                 | Some rep => [Post (url rep) (fst (notification host (self s) R))
                                     (snd (notification host (self s) R))]
                 | None => []
                 end)%list.
Proof.
  rewrite summarize_spec.
  destruct (lark_reporter (self s)) as [rep|].
  - rewrite post_trace. unfold record; simpl. now rewrite app_assoc.
  - simpl. now rewrite app_nil_r.
Qed.

Lemma summarize_emitted (host : Host) (R : list (string * Z)) (s : Store) :
  emitted (summarize host R) s
  = (failure_logs R
     ++ match lark_reporter (self s) with
        | Some rep => [Post (url rep) (fst (notification host (self s) R))
                            (snd (notification host (self s) R))]
        | None => []
        end)%list.
Proof.
  unfold emitted. rewrite summarize_final. unfold record; simpl.
  apply skipn_past.
Qed.

Lemma logs_of_failure_logs (R : list (string * Z)) :
  logs_of (failure_logs R) = failure_logs R.
Proof.
  unfold logs_of, failure_logs.
  induction (filter is_failed R) as [|e l IH]; simpl; [reflexivity|].
  now rewrite IH.
Qed.

Lemma posts_of_failure_logs (R : list (string * Z)) :
  posts_of (failure_logs R) = [].
Proof.
  unfold posts_of, failure_logs.
  induction (filter is_failed R) as [|e l IH]; simpl; [reflexivity | exact IH].
Qed.

(** ** Joining and splitting lines *)

Lemma split_on_absent (c : ascii) (s : string) :
  has_char c s = false -> split_on c s = [s].
Proof.
  induction s as [|a s IH]; simpl; [reflexivity|].
  destruct (Ascii.eqb a c); simpl; [discriminate|].
  intro H. now rewrite (IH H).
Qed.

Lemma split_on_first (c : ascii) (a b : string) :
  has_char c a = false ->
  split_on c (a ++ String c b) = a :: split_on c b.
Proof.
  induction a as [|x a IH]; simpl.
  - intros _. now rewrite Ascii.eqb_refl.
  - destruct (Ascii.eqb x c); simpl; [discriminate|].
    intro H. now rewrite (IH H).
Qed.

Lemma split_on_join (c : ascii) (names : list string) :
  names <> [] ->
  Forall (fun n => has_char c n = false) names ->
  split_on c (join (String c EmptyString) names) = names.
Proof.
  induction names as [|x rest IH]; [congruence|].
  intros _ H. inversion H as [|? ? Hx Hrest]; subst.
  destruct rest as [|y rest].
  - simpl. now apply split_on_absent.
  - change (join (String c EmptyString) (x :: y :: rest))
      with (x ++ String c (join (String c EmptyString) (y :: rest))).
    rewrite (split_on_first c x _ Hx). f_equal.
    apply IH; [discriminate | exact Hrest].
Qed.

Lemma failed_names_NoDup (R : list (string * Z)) :
  NoDup (map fst R) -> NoDup (failed_names R).
Proof.
  unfold failed_names.
  induction R as [|e R IH]; simpl; intro H; [constructor|].
  inversion H as [|? ? Hn Hd]; subst.
  destruct (is_failed e); simpl; [|now apply IH].
  constructor; [|now apply IH].
  intro I. apply Hn. apply in_map_iff in I. destruct I as (e' & E & I).
  apply filter_In in I. apply in_map_iff. exists e'. tauto.
Qed.

(** ** Counting and classification *)

(** C2: for every result list [R], the loop of [summarize] returns the
    list of failed names, and the succeeded count computed from it
    satisfies [num_succeeded + len(failed_logs) = len(R)], that is
    [num_succeeded = len(R) - len(failed_logs)].  Every entry belongs to
    exactly one group: the failed names are the names of the entries
    with a nonzero code, the succeeded count is the number of entries
    with code 0, and no entry is in both or in neither. *)
Theorem summarize_counts (R : list (string * Z)) (s : Store) :
  exists failed_logs s',
    summarize_loop R [] s = Returned failed_logs s'
    /\ (num_succeeded R failed_logs + len failed_logs = len R)%Z
    /\ (num_succeeded R failed_logs = len R - len failed_logs)%Z
    /\ failed_logs = map fst (filter is_failed R)
    /\ len failed_logs = len (filter is_failed R)
    /\ num_succeeded R failed_logs = len (filter is_succeeded R)
    /\ (forall e, In e R -> xorb (is_succeeded e) (is_failed e) = true).
Proof.
  exists (failed_names R), (record s (failure_logs R)).
  split; [exact (summarize_loop_spec R [] s)|].
  assert (L : len (failed_names R) = len (filter is_failed R)).
  { unfold len. now rewrite failed_names_length. }
  repeat split.
  - unfold num_succeeded; lia.
  - exact L.
  - unfold num_succeeded. rewrite L. unfold len.
    pose proof (filter_partition_length is_succeeded R) as P.
    assert (E : filter (fun x => negb (is_succeeded x)) R = filter is_failed R)
      by reflexivity.
    rewrite E in P. lia.
  - intros e _. unfold is_succeeded, is_failed.
    now destruct (snd e =? 0)%Z.
Qed.

(** ** Logging *)

(** C6: [summarize] emits exactly one log record per entry with a
    nonzero exit code, at level ERROR, whose message is
    ["<task> failed with code <code>"]; the records come in the order of
    the entries, nothing is logged for an entry with code 0, and these
    are all the log records of the call, whether it returns or raises. *)
Theorem summarize_logs (host : Host) (R : list (string * Z)) (s : Store) :
  logs_of (emitted (summarize host R) s)
  = map (fun e => Log ERROR (fst e ++ " failed with code " ++ str_int (snd e)))
        (filter (fun e => negb (snd e =? 0)%Z) R)
  /\ List.length (logs_of (emitted (summarize host R) s))
     = List.length (filter (fun e => negb (snd e =? 0)%Z) R).
Proof.
  assert (E : logs_of (emitted (summarize host R) s) = failure_logs R).
  { rewrite summarize_emitted. unfold logs_of. rewrite filter_app.
    fold (logs_of (failure_logs R)). rewrite logs_of_failure_logs.
    destruct (lark_reporter (self s)); simpl; apply app_nil_r. }
  split; [exact E|].
  rewrite E. unfold failure_logs. apply length_map.
Qed.

Example scenario2_logs :
  logs_of (emitted (summarize host_up [("t1", 0%Z); ("t2", 137%Z)])
                   (fresh runner_lark))
  = [Log ERROR "t2 failed with code 137"].
Proof. reflexivity. Qed.

Example scenario1_no_logs :
  logs_of (emitted (summarize host_up [("t1", 0); ("t2", 0); ("t3", 0)]%Z)
                   (fresh runner_lark))
  = [].
Proof. reflexivity. Qed.

(** ** The notification *)

Lemma summarize_posts (host : Host) (R : list (string * Z)) (s : Store) :
  posts_of (emitted (summarize host R) s)
  = match lark_reporter (self s) with
    | Some rep => [Post (url rep) (fst (notification host (self s) R))
                        (snd (notification host (self s) R))]
    | None => []
    end.
Proof.
  rewrite summarize_emitted. unfold posts_of. rewrite filter_app.
  fold (posts_of (failure_logs R)). rewrite posts_of_failure_logs.
  now destruct (lark_reporter (self s)).
Qed.

(** C3: when a reporter is configured and some entry of [R] has a
    nonzero code, [summarize] makes one [post], the failure report: the
    title carries the number of failed tasks, and the content is the
    header (user, task type, succeeded count, failed count) followed by
    a newline and the failed names joined by newlines, in the order of
    their entries in [R], one name per failed entry.  When no name
    contains a newline the lines of that listing are exactly the failed
    names, and when the names of [R] are distinct so are the listed
    ones. *)
Theorem summarize_failure_report
    (host : Host) (R : list (string * Z)) (s : Store) (rep : LarkReporter) :
  lark_reporter (self s) = Some rep ->
  (exists t c, In (t, c) R /\ c <> 0%Z) ->
  let failed := map fst (filter (fun e => negb (snd e =? 0)%Z) R) in
  let n_failed := len failed in
  let n_succeeded := (len R - n_failed)%Z in
  let title := "悲报：您有" ++ str_int n_failed ++ "个任务炸了" in
  let header :=
    getuser host ++ " 的 " ++ type (task_cfg (self s))
      ++ " 任务已完成，成功任务 " ++ str_int n_succeeded
      ++ " 个，失败 " ++ str_int n_failed ++ " 个。以下为失败的任务列表：" in
  let listing := join nl failed in
  posts_of (emitted (summarize host R) s)
  = [Post (url rep) title (header ++ nl ++ listing)]
  /\ (0 < n_failed)%Z
  /\ n_failed = len (filter (fun e => negb (snd e =? 0)%Z) R)
  /\ (Forall (fun n => has_char newline n = false) failed ->
      split_on newline listing = failed)
  /\ (NoDup (map fst R) -> NoDup failed).
Proof.
  intros Hrep Hfail failed n_failed n_succeeded title header listing.
  assert (N : failed_names R <> []) by now apply failed_names_nonempty.
  change failed with (failed_names R) in *.
  repeat split.
  - rewrite summarize_posts, Hrep. unfold notification.
    apply len_pos_iff in N. rewrite N. cbv beta iota zeta delta [fst snd].
    unfold header, title, n_succeeded, n_failed, listing, num_succeeded.
    rewrite !append_assoc. reflexivity.
  - apply len_pos_iff in N. unfold n_failed. lia.
  - unfold n_failed, len. now rewrite failed_names_length.
  - intro H. unfold listing, nl. now apply split_on_join.
  - apply failed_names_NoDup.
Qed.

(** C4: when a reporter is configured and every entry of [R] has code 0
    (also when [R] is empty), [summarize] logs nothing and makes one
    [post], the success report: the title announces that all tasks are
    done and the content is made of the user, the task type and the
    succeeded count [len(R)] only.  No task name enters it: renaming the
    tasks leaves everything that is emitted unchanged. *)
Theorem summarize_success_report
    (host : Host) (R : list (string * Z)) (s : Store) (rep : LarkReporter) :
  lark_reporter (self s) = Some rep ->
  Forall (fun e => snd e = 0%Z) R ->
  emitted (summarize host R) s
  = [Post (url rep) "喜报：全部任务完成"
          (getuser host ++ " 的 " ++ type (task_cfg (self s))
             ++ " 任务已完成，成功任务 " ++ str_int (len R) ++ " 个。")]
  /\ (forall rename : string -> string,
         emitted (summarize host (map (fun e => (rename (fst e), snd e)) R)) s
         = emitted (summarize host R) s).
Proof.
  intros Hrep Hok.
  assert (G : forall R', Forall (fun e => snd e = 0%Z) R' ->
            emitted (summarize host R') s
            = [Post (url rep) "喜报：全部任务完成"
                 (getuser host ++ " 的 " ++ type (task_cfg (self s))
                  ++ " 任务已完成，成功任务 " ++ str_int (len R') ++ " 个。")]).
  { intros R' H. rewrite summarize_emitted, Hrep.
    pose proof (failed_names_all_ok R' H) as E.
    assert (L : failure_logs R' = []).
    { unfold failure_logs. unfold failed_names in E.
      destruct (filter is_failed R'); [reflexivity | discriminate]. }
    rewrite L. unfold notification, num_succeeded. rewrite E. simpl.
    unfold len at 1. simpl. now rewrite Z.sub_0_r. }
  split; [now apply G|].
  intro rename. rewrite (G R Hok), G.
  - unfold len. now rewrite length_map.
  - rewrite Forall_forall in *. intros e I.
    apply in_map_iff in I. destruct I as (e' & <- & I). simpl. now apply Hok.
Qed.

Example scenario3_empty :
  emitted (summarize host_up []) (fresh runner_lark)
  = [Post "https://open.feishu.cn/bot/hook" "喜报：全部任务完成"
          "alice 的 OpenICLInferTask 任务已完成，成功任务 0 个。"].
Proof. reflexivity. Qed.

(** ** Without a reporter *)

Lemma summarize_quiet (host : Host) (R : list (string * Z)) (s : Store) :
  lark_reporter (self s) = None ->
  summarize host R s = Returned tt (record s (failure_logs R)).
Proof. intro H. rewrite summarize_spec. now rewrite H. Qed.

Lemma truthy_false (target : option string) :
  truthy target = false <-> target = None \/ target = Some EmptyString.
Proof.
  destruct target as [[|a u]|]; simpl; split; intro H;
    try discriminate; try tauto; try (destruct H as [H|H]; discriminate).
Qed.

(** C5: a runner constructed without [lark_bot_url] never calls [post],
    for any result list: [summarize] returns normally, and all it emits
    are the error log records of the failed entries, one ERROR record
    ["<task> failed with code <code>"] per entry with a nonzero code, in
    order.  These log records are the same as those of a runner
    constructed with any target, on any host. *)
Theorem summarize_without_target
    (host : Host) (task : ConfigDict) (dbg : bool)
    (R : list (string * Z)) (tr : list event) :
  let s := {| self := __init__ task dbg None; trace := tr |} in
  posts_of (emitted (summarize host R) s) = []
  /\ result (summarize host R s) = inl tt
  /\ emitted (summarize host R) s = logs_of (emitted (summarize host R) s)
  /\ (forall (host' : Host) (target : option string),
         logs_of (emitted (summarize host' R)
                          {| self := __init__ task dbg target; trace := tr |})
         = logs_of (emitted (summarize host R) s))
  /\ emitted (summarize host R) s
     = map (fun e => Log ERROR (fst e ++ " failed with code " ++ str_int (snd e)))
           (filter (fun e => negb (snd e =? 0)%Z) R)
  /\ (forall (host' : Host) (target : option string),
         logs_of (emitted (summarize host' R)
                          {| self := __init__ task dbg target; trace := tr |})
         = map (fun e => Log ERROR (fst e ++ " failed with code "
                                       ++ str_int (snd e)))
               (filter (fun e => negb (snd e =? 0)%Z) R)).
Proof.
  intro s.
  assert (L : forall h s0, logs_of (emitted (summarize h R) s0) = failure_logs R).
  { intros h s0. rewrite summarize_emitted. unfold logs_of. rewrite filter_app.
    fold (logs_of (failure_logs R)). rewrite logs_of_failure_logs.
    destruct (lark_reporter (self s0)); simpl; apply app_nil_r. }
  assert (E : emitted (summarize host R) s = failure_logs R).
  { rewrite summarize_emitted. simpl. apply app_nil_r. }
  split; [now rewrite summarize_posts|].
  split; [now rewrite summarize_quiet|].
  split; [now rewrite L, E|].
  split; [intros host' target; now rewrite !L|].
  split; [exact E|].
  intros host' target. exact (L host' _).
Qed.

Example scenario4_no_target :
  summarize host_down [("t1", 3%Z)] (fresh runner_quiet)
  = Returned tt {| self := runner_quiet;
                   trace := [Log ERROR "t1 failed with code 3"] |}.
Proof. reflexivity. Qed.

(** C10: a false [lark_bot_url], which for this argument is [None] or
    the empty string, leaves [lark_reporter] at [None]; under such a
    configuration [summarize] makes no [post] for any result list and
    returns normally. *)
Theorem falsy_target_disables_notification
    (host : Host) (task : ConfigDict) (dbg : bool) (target : option string)
    (R : list (string * Z)) (tr : list event) :
  truthy target = false ->
  (target = None \/ target = Some EmptyString)
  /\ lark_reporter (__init__ task dbg target) = None
  /\ posts_of (emitted (summarize host R)
                       {| self := __init__ task dbg target; trace := tr |}) = []
  /\ result (summarize host R
               {| self := __init__ task dbg target; trace := tr |}) = inl tt.
Proof.
  intro H.
  assert (N : lark_reporter (__init__ task dbg target) = None).
  { unfold __init__; simpl. now rewrite H. }
  repeat split.
  - now apply truthy_false.
  - exact N.
  - rewrite summarize_posts. simpl self. now rewrite N.
  - rewrite summarize_quiet; [reflexivity | exact N].
Qed.

(** ** The debug flag *)

(** C9: two runners constructed with the same task and target and with
    different debug flags cannot be told apart through [summarize]: on
    every result list, from the same trace, they emit the same events
    (log records, and the [post] with its title and content) and give
    the caller the same result. *)
Theorem summarize_ignores_debug
    (host : Host) (task : ConfigDict) (d1 d2 : bool) (target : option string)
    (R : list (string * Z)) (tr : list event) :
  let s1 := {| self := __init__ task d1 target; trace := tr |} in
  let s2 := {| self := __init__ task d2 target; trace := tr |} in
  emitted (summarize host R) s1 = emitted (summarize host R) s2
  /\ logs_of (emitted (summarize host R) s1)
     = logs_of (emitted (summarize host R) s2)
  /\ posts_of (emitted (summarize host R) s1)
     = posts_of (emitted (summarize host R) s2)
  /\ result (summarize host R s1) = result (summarize host R s2).
Proof.
  intros s1 s2.
  assert (E : emitted (summarize host R) s1 = emitted (summarize host R) s2).
  { rewrite !summarize_emitted. reflexivity. }
  repeat split; try (now rewrite E).
  rewrite !summarize_spec. unfold s1, s2, __init__; simpl.
  destruct (truthy target); [|reflexivity].
  destruct target as [u|]; [|reflexivity].
  unfold post, notification; simpl.
  destruct (len (failed_names R) >? 0)%Z; simpl;
    match goal with |- context [deliver ?h ?a ?b ?c ?d] =>
      destruct (deliver h a b c d) end; reflexivity.
Qed.

(** ** Calling twice *)

(** C7: [summarize] leaves the runner object as it found it, and what it
    emits depends on the result list, the runner and the host user only,
    not on what happened before.  So a second call on the same [R]
    produces the same failed names and succeeded count, the same log
    records and the same [post] with the same title and content; and
    when the transport does not depend on the history either, the
    caller gets the same result. *)
Theorem summarize_idempotent (host : Host) (R : list (string * Z)) (s : Store) :
  let s' := final (summarize host R s) in
  self s' = self s
  /\ emitted (summarize host R) s' = emitted (summarize host R) s
  /\ (forall s1 s2, self s1 = self s2 ->
        emitted (summarize host R) s1 = emitted (summarize host R) s2)
  /\ (exists failed_logs,
        forall s0, exists s0',
          summarize_loop R [] s0 = Returned failed_logs s0'
          /\ self s0' = self s0)
  /\ ((forall u t c h1 h2, deliver host u t c h1 = deliver host u t c h2) ->
      result (summarize host R s') = result (summarize host R s)).
Proof.
  intro s'.
  assert (S : self s' = self s).
  { unfold s'. now rewrite summarize_final. }
  assert (E : forall s1 s2, self s1 = self s2 ->
            emitted (summarize host R) s1 = emitted (summarize host R) s2).
  { intros s1 s2 H. rewrite !summarize_emitted. now rewrite H. }
  repeat split.
  - exact S.
  - now apply E.
  - exact E.
  - exists (failed_names R). intro s0. exists (record s0 (failure_logs R)).
    split; [exact (summarize_loop_spec R [] s0) | reflexivity].
  - intro H. rewrite !summarize_spec, S.
    destruct (lark_reporter (self s)) as [rep|]; [|reflexivity].
    unfold post. simpl.
    rewrite (H _ _ _ (trace s' ++ failure_logs R)%list
                     (trace s ++ failure_logs R)%list).
    now destruct (deliver host _ _ _ _).
Qed.

(** ** What the caller of [summarize] gets *)

Lemma summarize_result (host : Host) (R : list (string * Z)) (s : Store) :
  result (summarize host R s)
  = match lark_reporter (self s) with
    | Some rep =>
        match deliver host (url rep) (fst (notification host (self s) R))
                      (snd (notification host (self s) R))
                      (trace s ++ failure_logs R) with
        | None => inl tt
        | Some e => inr e
        end
    | None => inl tt
    end.
Proof.
  rewrite summarize_spec.
  destruct (lark_reporter (self s)) as [rep|]; [|reflexivity].
  unfold post, record; simpl.
  now destruct (deliver host _ _ _ _).
Qed.

(** ** Delivery errors *)



(** ** The entry point *)

Lemma call_unfold (host : Host) {Task} (L : Launcher Task)
    (tasks : list Task) (s : Store) :
  __call__ host tasks s
  = match launch tasks s with
    | Returned status s1 => summarize host status s1
    | Raised e s1 => Raised e s1
    end.
Proof. reflexivity. Qed.



(** ** The statements at concrete runs *)

Lemma summarize_failure_report_witness :
  lark_reporter (self (fresh runner_lark))
  = Some {| url := "https://open.feishu.cn/bot/hook" |}
  /\ (exists t c, In (t, c) [("t1", 0%Z); ("t2", 137%Z)] /\ c <> 0%Z)
  /\ posts_of (emitted (summarize host_up [("t1", 0%Z); ("t2", 137%Z)])
                       (fresh runner_lark))
     = [Post "https://open.feishu.cn/bot/hook" "悲报：您有1个任务炸了"
             ("alice 的 OpenICLInferTask 任务已完成，成功任务 1 个，"
              ++ "失败 1 个。以下为失败的任务列表：" ++ nl ++ "t2")].
Proof.
  assert (H1 : lark_reporter (self (fresh runner_lark))
               = Some {| url := "https://open.feishu.cn/bot/hook" |})
    by reflexivity.
  assert (H2 : exists t c, In (t, c) [("t1", 0%Z); ("t2", 137%Z)] /\ c <> 0%Z).
  { exists "t2", 137%Z. split; [simpl; auto | discriminate]. }
  split; [exact H1 | split; [exact H2 |]].
  exact (proj1 (summarize_failure_report host_up _ _ _ H1 H2)).
Defined.

Lemma summarize_success_report_witness :
  Forall (fun e : string * Z => snd e = 0%Z) [("t1", 0); ("t2", 0); ("t3", 0)]%Z
  /\ emitted (summarize host_up [("t1", 0); ("t2", 0); ("t3", 0)]%Z)
             (fresh runner_lark)
     = [Post "https://open.feishu.cn/bot/hook" "喜报：全部任务完成"
             "alice 的 OpenICLInferTask 任务已完成，成功任务 3 个。"].
Proof.
  assert (H : Forall (fun e : string * Z => snd e = 0%Z)
                     [("t1", 0); ("t2", 0); ("t3", 0)]%Z)
    by (repeat constructor).
  split; [exact H|].
  exact (proj1 (summarize_success_report host_up _ (fresh runner_lark)
                  {| url := "https://open.feishu.cn/bot/hook" |} eq_refl H)).
Defined.

Lemma falsy_target_disables_notification_witness :
  truthy (Some EmptyString) = false
  /\ posts_of (emitted (summarize host_down [("t1", 1%Z)])
                       {| self := __init__ infer_task true (Some EmptyString);
                          trace := [] |}) = [].
Proof.
  split; [reflexivity|].
  exact (proj1 (proj2 (proj2
    (falsy_target_disables_notification host_down infer_task true
       (Some EmptyString) [("t1", 1%Z)] [] eq_refl)))).
Defined.


(** * Further properties of the runner *)

(** ** Helpers *)

Lemma summarize_emitted_logs (host : Host) (R : list (string * Z)) (s : Store) :
  logs_of (emitted (summarize host R) s) = failure_logs R.
Proof.
  rewrite summarize_emitted. unfold logs_of. rewrite filter_app.
  fold (logs_of (failure_logs R)). rewrite logs_of_failure_logs.
  destruct (lark_reporter (self s)); simpl; apply app_nil_r.
Qed.

Lemma filter_app_failed (R1 R2 : list (string * Z)) :
  failure_logs (R1 ++ R2) = (failure_logs R1 ++ failure_logs R2)%list.
Proof. unfold failure_logs. now rewrite filter_app, map_app. Qed.

Lemma Permutation_filter_keep {A} (p : A -> bool) (l l' : list A) :
  Permutation l l' -> Permutation (filter p l) (filter p l').
Proof.
  induction 1 as [|x l l' _ IH|x y l|l l' l'' _ IH1 _ IH2]; simpl.
  - constructor.
  - destruct (p x); [now constructor | exact IH].
  - destruct (p x), (p y); try apply Permutation_refl. apply perm_swap.
  - now apply Permutation_trans with (filter p l').
Qed.

Lemma filter_all_length {A} (p : A -> bool) (l : list A) :
  List.length (filter p l) = List.length l <-> Forall (fun x => p x = true) l.
Proof.
  induction l as [|x l IH]; simpl.
  - split; [constructor | reflexivity].
  - pose proof (filter_length_le p l) as B.
    destruct (p x) eqn:E; simpl; split; intro H.
    + constructor; [exact E|]. apply IH. lia.
    + inversion H; subst. f_equal. now apply IH.
    + lia.
    + inversion H; subst. congruence.
Qed.

Lemma failed_names_empty_iff (R : list (string * Z)) :
  failed_names R = [] <-> Forall (fun e => snd e = 0%Z) R.
Proof.
  split; [|apply failed_names_all_ok].
  intro E. apply Forall_forall. intros [t c] I. simpl.
  destruct (Z.eq_dec c 0) as [Z0|N]; [exact Z0|].
  exfalso. assert (F : failed_names R <> []).
  { apply failed_names_nonempty. now exists t, c. }
  now apply F.
Qed.

Lemma titles_posted (host : Host) (R : list (string * Z)) (s : Store) :
  titles (emitted (summarize host R) s)
  = match lark_reporter (self s) with
    | Some _ => [fst (notification host (self s) R)]
    | None => []
    end.
Proof.
  rewrite summarize_emitted. unfold titles. rewrite flat_map_app.
  assert (L : flat_map (fun e => match e with
                                 | Post _ title _ => [title]
                                 | Log _ _ => []
                                 end) (failure_logs R) = []).
  { unfold failure_logs.
    induction (filter is_failed R) as [|e l IH]; simpl; [reflexivity | exact IH]. }
  rewrite L. now destruct (lark_reporter (self s)).
Qed.

Lemma append_cancel_l (a x y : string) : a ++ x = a ++ y -> x = y.
Proof.
  induction a as [|c a IH]; simpl; intro H; [exact H|].
  injection H as H. now apply IH.
Qed.

Lemma length_append (a b : string) :
  String.length (a ++ b) = (String.length a + String.length b)%nat.
Proof. induction a as [|c a IH]; simpl; [reflexivity | now rewrite IH]. Qed.

Lemma append_cancel_r (a b x : string) : a ++ x = b ++ x -> a = b.
Proof.
  revert b. induction a as [|c a IH]; intros [|d b] H; simpl in H.
  - reflexivity.
  - apply (f_equal String.length) in H. simpl in H.
    rewrite length_append in H. lia.
  - apply (f_equal String.length) in H. simpl in H.
    rewrite length_append in H. lia.
  - injection H as -> H. f_equal. now apply IH.
Qed.

Lemma str_int_inj (a b : Z) : str_int a = str_int b -> a = b.
Proof.
  unfold str_int. intro H.
  assert (P : forall z, NilZero.int_of_string (NilZero.string_of_int (Z.to_int z))
                        = Some (Z.to_int z)).
  { intro z. apply NilZero.isi; destruct z as [|p|p]; simpl; try discriminate;
      intro E; injection E as E; now apply (Unsigned.to_uint_nonnil p). }
  pose proof (P a) as Pa. rewrite H, P in Pa. injection Pa as Pa.
  rewrite <- (DecimalZ.of_to a), <- (DecimalZ.of_to b). now rewrite Pa.
Qed.

(** ** Where the report goes *)

(** X1: a runner constructed with a non-empty [lark_bot_url] posts to
    that url and nowhere else: every [post] of a [summarize] call is
    addressed to the url given at construction, whether the call returns
    or raises.  When the call returns normally, exactly one [post] was
    made, to that url. *)
Theorem summarize_posts_to_target
    (host : Host) (task : ConfigDict) (dbg : bool) (u : string)
    (R : list (string * Z)) (tr : list event) :
  u <> EmptyString ->
  let s := {| self := __init__ task dbg (Some u); trace := tr |} in
  Forall (fun e => exists title content, e = Post u title content)
         (posts_of (emitted (summarize host R) s))
  /\ (result (summarize host R s) = inl tt ->
      exists title content,
        posts_of (emitted (summarize host R) s) = [Post u title content]).
Proof.
  intros H s. rewrite summarize_posts. unfold s; simpl.
  destruct u as [|a u]; [now elim H|]. simpl. split.
  - constructor; [|constructor]. eexists; eexists; reflexivity.
  - intros _. eexists; eexists; reflexivity.
Qed.

Lemma summarize_posts_to_target_witness :
  "https://open.feishu.cn/bot/hook" <> EmptyString
  /\ result (summarize host_up [("t1", 2%Z)] (fresh runner_lark)) = inl tt
  /\ exists title content,
       posts_of (emitted (summarize host_up [("t1", 2%Z)]) (fresh runner_lark))
       = [Post "https://open.feishu.cn/bot/hook" title content].
Proof.
  assert (H : "https://open.feishu.cn/bot/hook" <> EmptyString) by discriminate.
  assert (N : result (summarize host_up [("t1", 2%Z)] (fresh runner_lark))
              = inl tt) by reflexivity.
  split; [exact H | split; [exact N|]].
  exact (proj2 (summarize_posts_to_target host_up infer_task false _
                  [("t1", 2%Z)] [] H) N).
Defined.

(** X2: the events of [summarize] come in a fixed order: first the error
    log records of the failed entries, then at most one [post], which
    is the last thing the call does.  So when the delivery raises, every
    failure has already been logged. *)
Theorem logs_precede_post
    (host : Host) (R : list (string * Z)) (s : Store) :
  emitted (summarize host R) s
  = (logs_of (emitted (summarize host R) s)
     ++ posts_of (emitted (summarize host R) s))%list
  /\ (List.length (posts_of (emitted (summarize host R) s)) <= 1)%nat.
Proof.
  rewrite summarize_emitted_logs, summarize_posts, summarize_emitted.
  split; [reflexivity|].
  destruct (lark_reporter (self s)); simpl; lia.
Qed.

(** ** Errors that leave the entry point *)

(** X3: when [__call__] raises, either [launch] raised that exception,
    and then [summarize] is not run and the call ends in the state
    [launch] left; or [launch] returned a result list and a reporter is
    configured, and then the exception arose while reporting, after the
    error log record of every failed entry was emitted.  With no
    reporter configured, nothing but an exception of [launch] leaves
    the call. *)
Theorem call_raises_from_launch_or_report
    (host : Host) {Task} (L : Launcher Task) (tasks : list Task)
    (s : Store) (e : exn) :
  result (__call__ host tasks s) = inr e ->
  (exists s1, launch tasks s = Raised e s1
              /\ __call__ host tasks s = Raised e s1)
  \/ (exists R s1 rep,
        launch tasks s = Returned R s1
        /\ lark_reporter (self s1) = Some rep
        /\ logs_of (emitted (summarize host R) s1)
           = map (fun x => Log ERROR (fst x ++ " failed with code "
                                         ++ str_int (snd x)))
                 (filter (fun x => negb (snd x =? 0)%Z) R)).
Proof.
  rewrite call_unfold.
  destruct (launch tasks s) as [R s1|e' s1] eqn:HL.
  - rewrite summarize_result. intro H. right.
    destruct (lark_reporter (self s1)) as [rep|] eqn:Hrep; [|discriminate].
    exists R, s1, rep. repeat split.
    + exact Hrep.
    + exact (summarize_emitted_logs host R s1).
  - simpl. intro H. injection H as ->. left. now exists s1.
Qed.

Lemma call_raises_from_launch_or_report_witness :
  result (@__call__ host_down string all_fail ["t1"; "t2"] (fresh runner_lark))
  = inr (Exn "ConnectionError" "Max retries exceeded")
  /\ ((exists s1,
         launch (Launcher := all_fail) ["t1"; "t2"] (fresh runner_lark)
         = Raised (Exn "ConnectionError" "Max retries exceeded") s1
         /\ @__call__ host_down string all_fail ["t1"; "t2"] (fresh runner_lark)
            = Raised (Exn "ConnectionError" "Max retries exceeded") s1)
      \/ (exists R s1 rep,
            launch (Launcher := all_fail) ["t1"; "t2"] (fresh runner_lark)
            = Returned R s1
            /\ lark_reporter (self s1) = Some rep
            /\ logs_of (emitted (summarize host_down R) s1)
               = map (fun x => Log ERROR (fst x ++ " failed with code "
                                             ++ str_int (snd x)))
                     (filter (fun x => negb (snd x =? 0)%Z) R))).
Proof.
  assert (H : result (@__call__ host_down string all_fail ["t1"; "t2"]
                        (fresh runner_lark))
              = inr (Exn "ConnectionError" "Max retries exceeded")) by reflexivity.
  split; [exact H|].
  exact (call_raises_from_launch_or_report host_down all_fail ["t1"; "t2"]
           (fresh runner_lark) _ H).
Defined.

Example scenario5_launch_fails :
  @__call__ host_up string unreachable ["t1"] (fresh runner_lark)
  = Raised (Exn "RuntimeError" "cluster unreachable") (fresh runner_lark).
Proof. reflexivity. Qed.

(** ** Result lists in pieces *)

(** X4: the loop of [summarize] over a concatenation is the loop over
    the first part followed by the loop over the second, started from
    the names collected so far; hence the log records for [R1 ++ R2] are
    those for [R1] followed by those for [R2]. *)
Theorem summarize_loop_app
    (host : Host) (R1 R2 : list (string * Z)) (acc : list string) (s : Store) :
  summarize_loop (R1 ++ R2) acc s
  = bind (summarize_loop R1 acc) (summarize_loop R2) s
  /\ logs_of (emitted (summarize host (R1 ++ R2)) s)
     = (logs_of (emitted (summarize host R1) s)
        ++ logs_of (emitted (summarize host R2) s))%list.
Proof.
  split.
  - revert acc s. induction R1 as [|[t c] R1 IH]; intros acc s.
    + reflexivity.
    + simpl. destruct (negb (c =? 0)%Z).
      * unfold bind at 1 3. unfold logger_error, emit.
        rewrite IH. reflexivity.
      * apply IH.
  - rewrite !summarize_emitted_logs. apply filter_app_failed.
Qed.

(** ** What the report does not depend on *)

(** X5: the report carries no exit code.  Replacing every exit code by
    another one that is zero exactly when the original is zero leaves
    the [post] of [summarize] unchanged: same target, title and
    content. *)
Theorem report_ignores_code_values
    (host : Host) (f : Z -> Z) (R : list (string * Z)) (s : Store) :
  (forall c, f c = 0%Z <-> c = 0%Z) ->
  posts_of (emitted (summarize host (map_codes f R)) s)
  = posts_of (emitted (summarize host R) s).
Proof.
  intro Hf.
  assert (F : failed_names (map_codes f R) = failed_names R).
  { assert (E : forall t c, is_failed (t, f c) = is_failed (t, c)).
    { intros t c. unfold is_failed; simpl. f_equal.
      destruct (Z.eqb_spec c 0) as [->|N].
      - apply Z.eqb_eq. now apply Hf.
      - apply Z.eqb_neq. intro H. apply N. now apply Hf. }
    unfold failed_names, map_codes.
    induction R as [|[t c] R IH]; [reflexivity|].
    cbn [map filter fst snd]. rewrite E.
    destruct (is_failed (t, c)); cbn [map fst]; [f_equal|]; exact IH. }
  assert (N : notification host (self s) (map_codes f R)
              = notification host (self s) R).
  { assert (LN : len (map_codes f R) = len R).
    { unfold len, map_codes. now rewrite length_map. }
    unfold notification, num_succeeded. now rewrite F, LN. }
  rewrite !summarize_posts. now rewrite N.
Qed.

Lemma report_ignores_code_values_witness :
  (forall c, (2 * c = 0 <-> c = 0)%Z)
  /\ posts_of (emitted (summarize host_up
                          (map_codes (fun c => 2 * c)%Z [("t1", 0); ("t2", 137)]%Z))
                       (fresh runner_lark))
     = posts_of (emitted (summarize host_up [("t1", 0); ("t2", 137)]%Z)
                         (fresh runner_lark)).
Proof.
  assert (H : forall c, (2 * c = 0 <-> c = 0)%Z) by (intro c; lia).
  split; [exact H|].
  exact (report_ignores_code_values host_up (fun c => 2 * c)%Z
           [("t1", 0); ("t2", 137)]%Z (fresh runner_lark) H).
Defined.

(** X6: the order of the results matters for the listing only.  For two
    result lists that are permutations of each other, [summarize] posts
    under the same title, its log records are a permutation of each
    other, and when no task failed it emits the very same events. *)
Theorem summarize_permutation
    (host : Host) (R R' : list (string * Z)) (s : Store) :
  Permutation R R' ->
  titles (emitted (summarize host R) s) = titles (emitted (summarize host R') s)
  /\ Permutation (logs_of (emitted (summarize host R) s))
                 (logs_of (emitted (summarize host R') s))
  /\ (Forall (fun e => snd e = 0%Z) R ->
      emitted (summarize host R) s = emitted (summarize host R') s).
Proof.
  intro P.
  pose proof (Permutation_filter_keep is_failed R R' P) as PF.
  assert (LF : len (failed_names R) = len (failed_names R')).
  { unfold len. rewrite !failed_names_length.
    now rewrite (Permutation_length PF). }
  repeat split.
  - rewrite !titles_posted. destruct (lark_reporter (self s)); [|reflexivity].
    unfold notification. rewrite LF.
    now destruct (len (failed_names R') >? 0)%Z.
  - rewrite !summarize_emitted_logs. unfold failure_logs.
    now apply Permutation_map.
  - intro H.
    assert (H' : Forall (fun e => snd e = 0%Z) R').
    { rewrite Forall_forall in *. intros e I. apply H.
      apply Permutation_in with R'; [now apply Permutation_sym | exact I]. }
    apply failed_names_empty_iff in H, H'.
    assert (N : notification host (self s) R = notification host (self s) R').
    { assert (LR : len R = len R').
      { unfold len. now rewrite (Permutation_length P). }
      unfold notification, num_succeeded. now rewrite H, H', LR. }
    assert (L : forall Q, failed_names Q = [] -> failure_logs Q = []).
    { intros Q E. unfold failure_logs. unfold failed_names in E.
      destruct (filter is_failed Q); [reflexivity | discriminate]. }
    rewrite !summarize_emitted, N, (L R H), (L R' H'). reflexivity.
Qed.

Lemma summarize_permutation_witness :
  Permutation [("t1", 0); ("t2", 137); ("t3", 1)]%Z
              [("t3", 1); ("t1", 0); ("t2", 137)]%Z
  /\ titles (emitted (summarize host_up [("t1", 0); ("t2", 137); ("t3", 1)]%Z)
                     (fresh runner_lark))
     = titles (emitted (summarize host_up [("t3", 1); ("t1", 0); ("t2", 137)]%Z)
                       (fresh runner_lark)).
Proof.
  assert (P : Permutation [("t1", 0); ("t2", 137); ("t3", 1)]%Z
                          [("t3", 1); ("t1", 0); ("t2", 137)]%Z).
  { apply Permutation_sym.
    apply (Permutation_cons_app [("t1", 0); ("t2", 137)]%Z []).
    rewrite app_nil_r. apply Permutation_refl. }
  split; [exact P|].
  exact (proj1 (summarize_permutation host_up _ _ (fresh runner_lark) P)).
Defined.

(** ** The counts at their bounds *)

(** X7: the succeeded count computed by [summarize] lies between 0 and
    [len(R)], as does the failed count.  It is [len(R)] exactly when
    every exit code is 0, and it is 0 exactly when every exit code is
    nonzero (in particular for the empty list, where both hold). *)
Theorem succeeded_count_bounds (R : list (string * Z)) (s : Store) :
  exists failed_logs s',
    summarize_loop R [] s = Returned failed_logs s'
    /\ (0 <= num_succeeded R failed_logs <= len R)%Z
    /\ (0 <= len failed_logs <= len R)%Z
    /\ (num_succeeded R failed_logs = len R
        <-> Forall (fun e => snd e = 0%Z) R)
    /\ (num_succeeded R failed_logs = 0%Z
        <-> Forall (fun e => snd e <> 0%Z) R).
Proof.
  exists (failed_names R), (record s (failure_logs R)).
  split; [exact (summarize_loop_spec R [] s)|].
  pose proof (filter_length_le is_failed R) as B.
  pose proof (failed_names_length R) as L.
  unfold num_succeeded, len. repeat split; try lia.
  - intro H. apply failed_names_empty_iff.
    destruct (failed_names R); [reflexivity | simpl in H; lia].
  - intro H. apply failed_names_empty_iff in H. rewrite H. simpl. lia.
  - intro H.
    assert (E : List.length (filter is_failed R) = List.length R) by lia.
    apply filter_all_length in E. rewrite Forall_forall in *.
    intros e I Z0. specialize (E e I). unfold is_failed in E.
    rewrite Z0 in E. discriminate.
  - intro H.
    assert (E : List.length (filter is_failed R) = List.length R).
    { apply filter_all_length. rewrite Forall_forall in *.
      intros e I. specialize (H e I). unfold is_failed.
      destruct (Z.eqb_spec (snd e) 0); [contradiction | reflexivity]. }
    lia.
Qed.

(** ** Reading the log back *)

Lemma has_char_append (c : ascii) (a b : string) :
  has_char c (a ++ b) = has_char c a || has_char c b.
Proof.
  induction a as [|x a IH]; simpl; [reflexivity|].
  now rewrite IH, orb_assoc.
Qed.

Lemma last_word_append (p n : string) :
  has_char " " n = false -> last_word (p ++ String " " n) = n.
Proof.
  intro H. induction p as [|a p IH]; simpl.
  - now rewrite H.
  - rewrite has_char_append. simpl. rewrite orb_true_r. exact IH.
Qed.

Lemma uint_no_space (d : Decimal.uint) :
  has_char " " (NilEmpty.string_of_uint d) = false.
Proof. induction d; simpl; auto. Qed.

Lemma str_int_no_space (z : Z) : has_char " " (str_int z) = false.
Proof.
  unfold str_int.
  destruct (Z.to_int z) as [d|d]; simpl;
    destruct d; simpl; try reflexivity; apply uint_no_space.
Qed.

Lemma failure_log_inj (e e' : string * Z) :
  failure_log e = failure_log e' -> e = e'.
Proof.
  destruct e as [t c], e' as [t' c']. unfold failure_log; simpl.
  intro H. injection H as H.
  assert (S : forall (x : string) (n : Z),
            x ++ " failed with code " ++ str_int n
            = (x ++ " failed with code") ++ String " " (str_int n)).
  { intros x n. now rewrite append_assoc. }
  assert (C : c = c').
  { apply str_int_inj.
    assert (E : last_word (t ++ " failed with code " ++ str_int c)
                = last_word (t' ++ " failed with code " ++ str_int c'))
      by (f_equal; exact H).
    rewrite !S in E.
    now rewrite !last_word_append in E by apply str_int_no_space. }
  subst c'. f_equal.
  apply (append_cancel_r t t' (" failed with code " ++ str_int c)). exact H.
Qed.

(** X8: the error log records of [summarize] are unambiguous.  From the
    log records of a call one recovers the failed entries, names and
    exit codes, in order: two result lists that produce the same log
    records have the same entries with a nonzero code.  This holds for
    every task name, also one that itself contains the words of the
    message. *)
Theorem logs_determine_failures
    (host host' : Host) (R R' : list (string * Z)) (s s' : Store) :
  logs_of (emitted (summarize host R) s)
  = logs_of (emitted (summarize host' R') s') ->
  filter (fun e => negb (snd e =? 0)%Z) R
  = filter (fun e => negb (snd e =? 0)%Z) R'.
Proof.
  rewrite !summarize_emitted_logs. unfold failure_logs.
  change (fun e : string * Z => negb (snd e =? 0)%Z) with is_failed.
  generalize (filter is_failed R) (filter is_failed R').
  induction l as [|e l IH]; intros [|e' l'] H; simpl in H;
    try reflexivity; try discriminate.
  pose proof (f_equal (@List.hd event (Log ERROR EmptyString)) H) as H1.
  pose proof (f_equal (@List.tl event) H) as H2.
  f_equal; [now apply failure_log_inj | now apply IH].
Qed.

Lemma logs_determine_failures_witness :
  logs_of (emitted (summarize host_up [("t1", 0); ("t2", 137)]%Z)
                   (fresh runner_lark))
  = logs_of (emitted (summarize host_down [("t2", 137); ("t3", 0)]%Z)
                     (fresh runner_quiet))
  /\ filter (fun e => negb (snd e =? 0)%Z) [("t1", 0); ("t2", 137)]%Z
     = filter (fun e => negb (snd e =? 0)%Z) [("t2", 137); ("t3", 0)]%Z.
Proof.
  assert (H : logs_of (emitted (summarize host_up [("t1", 0); ("t2", 137)]%Z)
                               (fresh runner_lark))
              = logs_of (emitted (summarize host_down [("t2", 137); ("t3", 0)]%Z)
                                 (fresh runner_quiet)))
    by reflexivity.
  split; [exact H|].
  exact (logs_determine_failures host_up host_down _ _ _ _ H).
Defined.

(** ** Which report is sent *)

(** X9: with a reporter configured, the title tells the two reports
    apart: [summarize] posts under the title of the success report
    exactly when every exit code in [R] is 0, and under a title that
    starts with the words of the failure report exactly when some exit
    code is nonzero. *)
Theorem report_variant_exact
    (host : Host) (R : list (string * Z)) (s : Store) (rep : LarkReporter) :
  lark_reporter (self s) = Some rep ->
  (titles (emitted (summarize host R) s) = ["喜报：全部任务完成"]
   <-> Forall (fun e => snd e = 0%Z) R)
  /\ ((exists rest, titles (emitted (summarize host R) s) = ["悲报：您有" ++ rest])
      <-> exists t c, In (t, c) R /\ c <> 0%Z).
Proof.
  intro Hrep. rewrite titles_posted, Hrep. unfold notification.
  destruct (len (failed_names R) >? 0)%Z eqn:E; cbn [fst].
  - assert (N : failed_names R <> []) by now apply len_pos_iff.
    split; split.
    + intro H. exfalso. discriminate H.
    + intro H. apply failed_names_empty_iff in H. contradiction.
    + intros _. now apply failed_names_nonempty.
    + intros _. eexists. reflexivity.
  - assert (N : failed_names R = []).
    { destruct (failed_names R) as [|n l] eqn:F; [reflexivity|].
      assert (P : (len (failed_names R) >? 0)%Z = true)
        by (apply len_pos_iff; rewrite F; discriminate).
      rewrite F in P. rewrite P in E. discriminate. }
    split; split.
    + intros _. now apply failed_names_empty_iff.
    + reflexivity.
    + intros [rest H]. exfalso. discriminate H.
    + intro H. apply failed_names_nonempty in H. contradiction.
Qed.

Lemma report_variant_exact_witness :
  lark_reporter (self (fresh runner_lark))
  = Some {| url := "https://open.feishu.cn/bot/hook" |}
  /\ (titles (emitted (summarize host_up [("t1", 0); ("t2", 0)]%Z)
                      (fresh runner_lark)) = ["喜报：全部任务完成"]
      <-> Forall (fun e : string * Z => snd e = 0%Z) [("t1", 0); ("t2", 0)]%Z).
Proof.
  assert (H : lark_reporter (self (fresh runner_lark))
              = Some {| url := "https://open.feishu.cn/bot/hook" |})
    by reflexivity.
  split; [exact H|].
  exact (proj1 (report_variant_exact host_up [("t1", 0); ("t2", 0)]%Z
                  (fresh runner_lark) _ H)).
Defined.
